(** * direct_ifc_query.ts: the IFC finder page

    A shallow embedding of [src/direct_ifc_query.ts].  The script wires
    collaborators of the host platform and of the component library together:
    it fetches one IFC file, loads it into the scene, builds a query group of
    two queries, evaluates the group, and isolates the items found; a panel
    lets the user retype the two patterns and evaluate again, and a button
    toggles the panel on narrow screens.

    What the script itself does is modelled step by step: the objects it
    creates and mutates (rules, queries, the group, the text inputs, the
    panel's class list) live in a [State], and every call it makes to a
    collaborator is appended to a log, in order, with the arguments the
    collaborator receives.  What a collaborator answers is not code of this
    script; it is taken from a [Host], so every statement below holds for
    whatever the collaborators answer.  How the finder matches rules, combines
    queries or caches results is therefore left open: those are properties of
    the component library, which this file does not embed.

    Handlers are run one at a time, each to its end: an [await] inside
    [updateFinder] is a plain sequence point here. *)

From Stdlib Require Import Init.Byte.
From stdpp Require Import base strings list gmap sets.

(** ** Values of the platform and of the component library *)

(** A compiled regular expression, identified by the pattern it was built
    from. *)
Record RegExp := { pattern : string }.

(** [RegExp.prototype.source]: the pattern text, with the empty pattern shown
    as a non-capturing group.  (Slashes and line terminators would be escaped;
    neither literal of the script has any.) *)
Definition source (re : RegExp) : string :=
  if decide (pattern re = "") then "(?:)" else pattern re.

(** The only exception the script's own statements can raise. *)
Inductive Exn :=
| SyntaxError (text : string).

(** [new File(bits, name)]. *)
Record File := { fileBits : list byte; fileName : string }.

(** [FRAGS.FragmentIdMap]: fragment id to the set of express ids. *)
Abbreviation FragmentIdMap := (gmap string (gset nat)).

(** [Object.keys]. *)
Definition Object_keys (o : FragmentIdMap) : list string := (map_to_list o).*1.

(** The two rule shapes the script builds ([type] is the constructor). *)
Inductive IfcFinderRule :=
| IfcCategoryRule (value : RegExp)
| IfcPropertyRule (name value : RegExp).

(** [rule.value = re]. *)
Definition set_value (re : RegExp) (r : IfcFinderRule) : IfcFinderRule :=
  match r with
  | IfcCategoryRule _ => IfcCategoryRule re
  | IfcPropertyRule n _ => IfcPropertyRule n re
  end.

Definition value_of (r : IfcFinderRule) : RegExp :=
  match r with
  | IfcCategoryRule v => v
  | IfcPropertyRule _ v => v
  end.

Inductive QueryClass := IfcBasicQuery | IfcPropertyQuery.

(** A query as configured by the script.  [R] is what its [rules] array
    holds: references to rule objects while the query lives in the page, the
    rule objects themselves once a collaborator reads through them. *)
Record IfcFinderQuery (R : Type) := {
  query_class : QueryClass;
  query_name : string;
  inclusive : bool;
  rules : list R;
}.
Arguments query_class {R} _.
Arguments query_name {R} _.
Arguments inclusive {R} _.
Arguments rules {R} _.

(** [query.rules.push(r)]. *)
Definition rules_push {R} (r : R) (q : IfcFinderQuery R) : IfcFinderQuery R :=
  {| query_class := query_class q; query_name := query_name q;
     inclusive := inclusive q; rules := rules q ++ [r] |}.

(** A call to a collaborator, with what the collaborator gets to see. *)
Inductive Call :=
| fetch (url : string)
| IfcLoader_load (buffer : list byte)
| scene_add (uuid : string)
| Query_clear (name : string)
| QueryGroup_update (modelID : string) (file : File)
    (queries : list (IfcFinderQuery IfcFinderRule))
| Hider_set (visible : bool) (items : option FragmentIdMap)
| console_log (items : FragmentIdMap)
| alert (message : string).

(** Which collaborator a call went to. *)
Definition is_QueryGroup_update (c : Call) : bool :=
  match c with QueryGroup_update _ _ _ => true | _ => false end.
Definition is_fetch (c : Call) : bool :=
  match c with fetch _ => true | _ => false end.
Definition is_IfcLoader_load (c : Call) : bool :=
  match c with IfcLoader_load _ => true | _ => false end.

(** The collaborators' answers.  [finder_items] is what [queryGroup.items]
    reads after the given history of calls; nothing is assumed about it. *)
Class Host := {
  http_body : string → list byte;
  loaded_uuid : list byte → string;
  finder_items : list Call → FragmentIdMap;
  pattern_ok : string → bool;
}.

(** ** The page's objects *)

(** Rule objects are shared: the script keeps [categoryRule] and
    [propertyRule], and each query's [rules] array points at the same
    object. *)
Abbreviation ref := nat.
Definition categoryRule : ref := 0.
Definition propertyRule : ref := 1.

Inductive QueryRef := basicQueryRef | propertyQueryRef.

Record State := {
  rule_store : gmap ref IfcFinderRule;
  basicQuery : IfcFinderQuery ref;
  propertyQuery : IfcFinderQuery ref;
  queryGroup : list QueryRef;
  model_uuid : string;
  ifcFile : File;
  categoryInput : string;
  propertyInput : string;
  panel_classList : list string;
  calls : list Call;
}.

Definition set_rule_store (f : gmap ref IfcFinderRule → gmap ref IfcFinderRule)
    (s : State) : State :=
  {| rule_store := f (rule_store s); basicQuery := basicQuery s;
     propertyQuery := propertyQuery s; queryGroup := queryGroup s;
     model_uuid := model_uuid s; ifcFile := ifcFile s;
     categoryInput := categoryInput s; propertyInput := propertyInput s;
     panel_classList := panel_classList s; calls := calls s |}.

Definition set_categoryInput (v : string) (s : State) : State :=
  {| rule_store := rule_store s; basicQuery := basicQuery s;
     propertyQuery := propertyQuery s; queryGroup := queryGroup s;
     model_uuid := model_uuid s; ifcFile := ifcFile s;
     categoryInput := v; propertyInput := propertyInput s;
     panel_classList := panel_classList s; calls := calls s |}.

Definition set_propertyInput (v : string) (s : State) : State :=
  {| rule_store := rule_store s; basicQuery := basicQuery s;
     propertyQuery := propertyQuery s; queryGroup := queryGroup s;
     model_uuid := model_uuid s; ifcFile := ifcFile s;
     categoryInput := categoryInput s; propertyInput := v;
     panel_classList := panel_classList s; calls := calls s |}.

Definition set_panel_classList (f : list string → list string)
    (s : State) : State :=
  {| rule_store := rule_store s; basicQuery := basicQuery s;
     propertyQuery := propertyQuery s; queryGroup := queryGroup s;
     model_uuid := model_uuid s; ifcFile := ifcFile s;
     categoryInput := categoryInput s; propertyInput := propertyInput s;
     panel_classList := f (panel_classList s); calls := calls s |}.

Definition log_call (c : Call) (s : State) : State :=
  {| rule_store := rule_store s; basicQuery := basicQuery s;
     propertyQuery := propertyQuery s; queryGroup := queryGroup s;
     model_uuid := model_uuid s; ifcFile := ifcFile s;
     categoryInput := categoryInput s; propertyInput := propertyInput s;
     panel_classList := panel_classList s; calls := calls s ++ [c] |}.

Definition query_of (s : State) (q : QueryRef) : IfcFinderQuery ref :=
  match q with
  | basicQueryRef => basicQuery s
  | propertyQueryRef => propertyQuery s
  end.

(** A query with its rule references followed into the store. *)
Definition deref (store : gmap ref IfcFinderRule) (q : IfcFinderQuery ref)
    : IfcFinderQuery IfcFinderRule :=
  {| query_class := query_class q; query_name := query_name q;
     inclusive := inclusive q;
     rules := omap (λ r, store !! r) (rules q) |}.

(** The queries of the group as a collaborator finds them. *)
Definition group_view (s : State) : list (IfcFinderQuery IfcFinderRule) :=
  deref (rule_store s) ∘ query_of s <$> queryGroup s.

(** ** [DOMTokenList] *)

Module classList.
Definition contains (token : string) (l : list string) : bool :=
  bool_decide (token ∈ l).
Definition add (token : string) (l : list string) : list string :=
  if contains token l then l else l ++ [token].
Definition remove (token : string) (l : list string) : list string :=
  filter (λ t, t ≠ token) l.
End classList.

(** ** Statements of an async function: state, log, and one exception *)

Definition M (A : Type) : Type := State → (Exn + A) * State.

#[global] Instance M_ret : MRet M := λ A a s, (inr a, s).
#[global] Instance M_bind : MBind M := λ A B f m s,
  match m s with
  | (inr a, s') => f a s'
  | (inl e, s') => (inl e, s')
  end.

Definition get {A} (f : State → A) : M A := λ s, (inr (f s), s).
Definition modify (f : State → State) : M unit := λ s, (inr (), f s).
Definition throw {A} (e : Exn) : M A := λ s, (inl e, s).
Definition call (c : Call) : M unit := modify (log_call c).

(** ** The script *)

Section Script.
Context `{!Host}.

Definition ifc_url : string :=
  "https://thatopen.github.io/engine_components/resources/small.ifc".

(** [new RegExp(text)]. *)
Definition new_RegExp (text : string) : M RegExp :=
  if pattern_ok text then mret {| pattern := text |}
  else throw (SyntaxError text).

(** [await queryGroup.update(model.uuid, ifcFile)]. *)
Definition queryGroup_update : M unit := λ s,
  call (QueryGroup_update (model_uuid s) (ifcFile s) (group_view s)) s.

(** [queryGroup.items]. *)
Definition queryGroup_items : M FragmentIdMap :=
  get (λ s, finder_items (calls s)).

(** The module body up to and including the first
    [await queryGroup.update(model.uuid, ifcFile)], in the order of the
    script's lines.  The text inputs and the panel are created later; their
    fields are blank here. *)
Definition first_evaluation : State :=
  (* const queryGroup = finder.create() *)
  let group0 : list QueryRef := [] in
  (* fetch, arrayBuffer, Uint8Array, load, scene.add; [buffer] is a view
     over the bytes of [data], which the loader reads *)
  let data := http_body ifc_url in
  let buffer := data in
  let model := loaded_uuid buffer in
  let log := [fetch ifc_url; IfcLoader_load buffer; scene_add model] in
  let file := {| fileBits := data; fileName := "example" |} in
  (* basicQuery, added to the group, then given its rule *)
  let basic0 : IfcFinderQuery ref :=
    {| query_class := IfcBasicQuery; query_name := "category";
       inclusive := false; rules := [] |} in
  let group1 := group0 ++ [basicQueryRef] in
  let store1 : gmap ref IfcFinderRule :=
    <[categoryRule := IfcCategoryRule {| pattern := "IfcWallStandardCase" |}]> ∅ in
  let basic1 := rules_push categoryRule basic0 in
  (* propertyRule, propertyQuery built around it, added to the group *)
  let store2 :=
    <[propertyRule := IfcPropertyRule {| pattern := ".*" |}
                                      {| pattern := "yeso" |}]> store1 in
  let property0 : IfcFinderQuery ref :=
    {| query_class := IfcPropertyQuery; query_name := "property";
       inclusive := false; rules := [propertyRule] |} in
  let group2 := group1 ++ [propertyQueryRef] in
  (* the first evaluation *)
  let view := deref store2 <$> [basic1; property0] in
  {| rule_store := store2; basicQuery := basic1; propertyQuery := property0;
     queryGroup := group2; model_uuid := model; ifcFile := file;
     categoryInput := ""; propertyInput := ""; panel_classList := [];
     calls := log ++ [QueryGroup_update model file view] |}.

(** The rest of the module body: the items found are isolated, then the two
    text inputs and the panel are created. *)
Definition startup : State :=
  let s := first_evaluation in
  let items := finder_items (calls s) in
  let s := log_call (Hider_set false None) s in
  let s := log_call (Hider_set true (Some items)) s in
  let s := set_categoryInput
             (default "" (source ∘ value_of <$> rule_store s !! categoryRule)) s in
  let s := set_propertyInput
             (default "" (source ∘ value_of <$> rule_store s !! propertyRule)) s in
  set_panel_classList (λ _, ["options-menu"]) s.

(** The handler of the Update button. *)
Definition updateFinder : M unit :=
  call (Query_clear "category");;
  call (Query_clear "property");;
  text ← get categoryInput;
  re ← new_RegExp text;
  modify (set_rule_store (alter (set_value re) categoryRule));;
  text ← get propertyInput;
  re ← new_RegExp text;
  modify (set_rule_store (alter (set_value re) propertyRule));;
  queryGroup_update;;
  items ← queryGroup_items;
  call (console_log items);;
  if length (Object_keys items) =? 0 then
    call (alert "No items found!")
  else
    call (Hider_set false None);;
    call (Hider_set true (Some items)).

(** The handler of the phone-menu toggler. *)
Definition toggler_click (s : State) : State :=
  if classList.contains "options-menu-visible" (panel_classList s) then
    set_panel_classList (classList.remove "options-menu-visible") s
  else
    set_panel_classList (classList.add "options-menu-visible") s.

(** What a user can do to the page. *)
Inductive UserAction :=
| TypeCategory (text : string)
| TypeProperty (text : string)
| ClickUpdate
| ClickToggler.

(** One event.  A rejected [updateFinder] ends that handler only: the page
    keeps the state reached when the exception was raised. *)
Definition handle (s : State) (a : UserAction) : State :=
  match a with
  | TypeCategory text => set_categoryInput text s
  | TypeProperty text => set_propertyInput text s
  | ClickUpdate => (updateFinder s).2
  | ClickToggler => toggler_click s
  end.

Definition run (actions : list UserAction) : State :=
  foldl handle startup actions.

(** The calls one handler run appended to the log. *)
Definition emitted (before after : State) : list Call :=
  drop (length (calls before)) (calls after).

(** The log at the moment [updateFinder] reads [queryGroup.items], and the
    mapping it reads, when both patterns compile. *)
Definition refreshed_store (s : State) : gmap ref IfcFinderRule :=
  alter (set_value {| pattern := propertyInput s |}) propertyRule
    (alter (set_value {| pattern := categoryInput s |}) categoryRule
       (rule_store s)).

Definition evaluation_calls (s : State) : list Call :=
  [Query_clear "category"; Query_clear "property";
   QueryGroup_update (model_uuid s) (ifcFile s)
     (group_view (set_rule_store (λ _, refreshed_store s) s))].

Definition evaluation_log (s : State) : list Call :=
  calls s ++ evaluation_calls s.

Definition recomputed (s : State) : FragmentIdMap :=
  finder_items (evaluation_log s).

(** The state after the two [clear] calls, and the state after
    [console.log(items)], when both patterns compile. *)
Definition cleared (s : State) : State :=
  log_call (Query_clear "property") (log_call (Query_clear "category") s).

Definition evaluated (s : State) : State :=
  log_call (console_log (recomputed s))
    (log_call
       (QueryGroup_update (model_uuid s) (ifcFile s)
          (group_view (set_rule_store (λ _, refreshed_store s) s)))
       (set_rule_store (λ _, refreshed_store s) (cleared s))).

(** The page as the script builds it, for a category pattern [c] and a
    property value pattern [v]: the shapes that no handler changes. *)
Definition store_of (c v : RegExp) : gmap ref IfcFinderRule :=
  <[propertyRule := IfcPropertyRule {| pattern := ".*" |} v]>
    (<[categoryRule := IfcCategoryRule c]> ∅).

Definition view_of (c v : RegExp) : list (IfcFinderQuery IfcFinderRule) :=
  [ {| query_class := IfcBasicQuery; query_name := "category";
       inclusive := false; rules := [IfcCategoryRule c] |};
    {| query_class := IfcPropertyQuery; query_name := "property";
       inclusive := false;
       rules := [IfcPropertyRule {| pattern := ".*" |} v] |} ].

Definition fetched_file : File :=
  {| fileBits := http_body ifc_url; fileName := "example" |}.

Definition update_ok (c : Call) : Prop :=
  match c with
  | QueryGroup_update m f q =>
      m = loaded_uuid (http_body ifc_url) ∧ f = fetched_file ∧
      ∃ c v, q = view_of c v
  | _ => True
  end.

Record page_ok (s : State) : Prop := {
  ok_model : model_uuid s = loaded_uuid (http_body ifc_url);
  ok_file : ifcFile s = fetched_file;
  ok_basic : basicQuery s =
    {| query_class := IfcBasicQuery; query_name := "category";
       inclusive := false; rules := [categoryRule] |};
  ok_property : propertyQuery s =
    {| query_class := IfcPropertyQuery; query_name := "property";
       inclusive := false; rules := [propertyRule] |};
  ok_group : queryGroup s = [basicQueryRef; propertyQueryRef];
  ok_rules : ∃ c v, rule_store s = store_of c v;
  ok_fetch : filter is_fetch (calls s) = [fetch ifc_url];
  ok_load :
    filter is_IfcLoader_load (calls s) = [IfcLoader_load (http_body ifc_url)];
  ok_updates : Forall update_ok (calls s);
}.
End Script.

(** ** The hider *)

(** Which elements are shown, by fragment id and express id. *)
Definition Visibility : Type := string → nat → bool.

(** Modelled from the spec: [Hider.set] is the component library's, not the
    script's.  The spec calls it the collaborator that applies visibility to
    a result set, and the script uses the pair [set(false)],
    [set(true, items)] to isolate the items found: without a mapping the call
    reaches every element, with one it reaches the elements listed.  No other
    call is given a say on visibility here. *)
Definition Hider_apply (v : Visibility) (c : Call) : Visibility :=
  match c with
  | Hider_set visible None => λ _ _, visible
  | Hider_set visible (Some items) => λ fragment id,
      match items !! fragment with
      | Some ids => if decide (id ∈ ids) then visible else v fragment id
      | None => v fragment id
      end
  | _ => v
  end.

(** The scene as the log leaves it; a freshly loaded model is all visible. *)
Definition visibility_of (log : list Call) : Visibility :=
  foldl Hider_apply (λ _ _, true) log.

(** ** A sample host

    One concrete choice of collaborators, to run the script on: a three-byte
    file, a finder that knows three walls and answers by the category pattern
    of the latest evaluation, and a pattern syntax that rejects a lone
    opening parenthesis. *)

Definition sample_bytes : list byte := [x49; x53; x4f].

Definition sample_walls : FragmentIdMap := {[ "walls" := {[ 11; 12; 13 ]} ]}.

Definition sample_items (log : list Call) : FragmentIdMap :=
  match last log with
  | Some (QueryGroup_update _ _ (q :: _)) =>
      match rules q with
      | [IfcCategoryRule re] =>
          if decide (pattern re = "IfcWallStandardCase") then sample_walls
          else ∅
      | _ => ∅
      end
  | _ => ∅
  end.

Definition sample_host : Host :=
  {| http_body := λ _, sample_bytes;
     loaded_uuid := λ _, "3f0c";
     finder_items := sample_items;
     pattern_ok := λ text, bool_decide (text ≠ "(") |}.



Definition door_paren_page : State :=
  @run sample_host [TypeCategory "IfcDoor"; TypeProperty "("].

(** Three pages on the sample host: as loaded, after "IfcDoor" was typed in
    the category field, and after "(" was typed in the property field. *)
Definition wall_page : State := @run sample_host [].
Definition door_page : State := @run sample_host [TypeCategory "IfcDoor"].
Definition paren_page : State := @run sample_host [TypeProperty "("].

(** ** Sessions *)


Definition is_ClickToggler (a : UserAction) : bool :=
  match a with ClickToggler => true | _ => false end.


Definition toggles (actions : list UserAction) : nat :=
  length (filter is_ClickToggler actions).


Section Vetting.
Context `{!Host}.

(** A pattern that is the literal the script wrote, or one that
    [new RegExp] accepted. *)
Definition vetted (literal : string) (re : RegExp) : Prop :=
  pattern re = literal ∨ pattern_ok (pattern re) = true.

Definition update_vetted (c : Call) : Prop :=
  match c with
  | QueryGroup_update _ _ q =>
      ∃ c v, q = view_of c v ∧
             vetted "IfcWallStandardCase" c ∧ vetted "yeso" v
  | _ => True
  end.

Record rules_vetted (s : State) : Prop := {
  vetted_store :
    ∃ c v, rule_store s = store_of c v ∧
           vetted "IfcWallStandardCase" c ∧ vetted "yeso" v;
  vetted_log : Forall update_vetted (calls s);
}.
End Vetting.


Definition broken_page : State :=
  @run sample_host [TypeCategory "("; TypeProperty "("].

(** * Properties *)

(** ** The empty-mapping test *)

Lemma Object_keys_empty (o : FragmentIdMap) :
  (length (Object_keys o) =? 0) = true ↔ o = ∅.
Proof.
  unfold Object_keys. rewrite length_fmap, length_map_to_list.
  rewrite Nat.eqb_eq. apply map_size_empty_iff.
Qed.

Lemma Object_keys_nonempty (o : FragmentIdMap) :
  (length (Object_keys o) =? 0) = false ↔ o ≠ ∅.
Proof.
  rewrite <- Object_keys_empty. destruct (length (Object_keys o) =? 0); naive_solver.
Qed.

(** ** The hider's reading of a log *)

Lemma visibility_of_isolate (log : list Call) (items : FragmentIdMap) fragment id :
  visibility_of (log ++ [Hider_set false None; Hider_set true (Some items)])
    fragment id
  = match items !! fragment with
    | Some ids => bool_decide (id ∈ ids)
    | None => false
    end.
Proof.
  unfold visibility_of. rewrite foldl_app. simpl.
  destruct (items !! fragment) as [ids|]; [|done].
  destruct (decide (id ∈ ids)).
  - by rewrite bool_decide_true.
  - by rewrite bool_decide_false.
Qed.

Section Proofs.
Context `{!Host}.

(** ** One run of [updateFinder], case by case *)

Lemma updateFinder_category_malformed (s : State) :
  pattern_ok (categoryInput s) = false →
  updateFinder s = (inl (SyntaxError (categoryInput s)), cleared s).
Proof.
  intros Hc. unfold updateFinder, mbind, M_bind, call, modify, get, new_RegExp, throw.
  simpl. by rewrite Hc.
Qed.

Lemma updateFinder_property_malformed (s : State) :
  pattern_ok (categoryInput s) = true →
  pattern_ok (propertyInput s) = false →
  updateFinder s =
    (inl (SyntaxError (propertyInput s)),
     set_rule_store
       (alter (set_value {| pattern := categoryInput s |}) categoryRule)
       (cleared s)).
Proof.
  intros Hc Hp.
  unfold updateFinder, mbind, M_bind, call, modify, get, new_RegExp, throw, mret, M_ret.
  simpl. rewrite Hc. simpl. by rewrite Hp.
Qed.

Lemma updateFinder_compiled (s : State) :
  pattern_ok (categoryInput s) = true →
  pattern_ok (propertyInput s) = true →
  updateFinder s =
    (inr (),
     if length (Object_keys (recomputed s)) =? 0 then
       log_call (alert "No items found!") (evaluated s)
     else
       log_call (Hider_set true (Some (recomputed s)))
         (log_call (Hider_set false None) (evaluated s))).
Proof.
  intros Hc Hp.
  unfold updateFinder, mbind, M_bind, call, modify, get, new_RegExp, throw, mret, M_ret,
    queryGroup_update, queryGroup_items, call, modify.
  simpl. rewrite Hc. simpl. rewrite Hp. simpl.
  rewrite <- !(assoc_L (++)). simpl.
  change (finder_items _) with (recomputed s).
  destruct (length (Object_keys (recomputed s)) =? 0); reflexivity.
Qed.
(** ** What one run appends to the log *)

Lemma emitted_app (s s' : State) (new : list Call) :
  calls s' = calls s ++ new → emitted s s' = new.
Proof. unfold emitted. intros ->. apply drop_app_length. Qed.

Lemma calls_cleared (s : State) :
  calls (cleared s) = calls s ++ [Query_clear "category"; Query_clear "property"].
Proof. simpl. by rewrite <- (assoc_L (++)). Qed.

Lemma calls_evaluated (s : State) :
  calls (evaluated s) =
    calls s ++ evaluation_calls s ++ [console_log (recomputed s)].
Proof. simpl. by rewrite <- !(assoc_L (++)). Qed.

Lemma emitted_zero_match (s : State) :
  pattern_ok (categoryInput s) = true →
  pattern_ok (propertyInput s) = true →
  recomputed s = ∅ →
  emitted s (updateFinder s).2 =
    evaluation_calls s ++ [console_log ∅; alert "No items found!"].
Proof.
  intros Hc Hp Hzero. rewrite (updateFinder_compiled s Hc Hp).
  rewrite (proj2 (Object_keys_empty _) Hzero). apply emitted_app.
  cbn [snd log_call calls]. rewrite calls_evaluated, Hzero.
  by rewrite <- !(assoc_L (++)).
Qed.

Lemma emitted_some_match (s : State) :
  pattern_ok (categoryInput s) = true →
  pattern_ok (propertyInput s) = true →
  recomputed s ≠ ∅ →
  emitted s (updateFinder s).2 =
    evaluation_calls s ++
      [console_log (recomputed s); Hider_set false None;
       Hider_set true (Some (recomputed s))].
Proof.
  intros Hc Hp Hsome. rewrite (updateFinder_compiled s Hc Hp).
  rewrite (proj2 (Object_keys_nonempty _) Hsome). apply emitted_app.
  cbn [snd log_call calls]. rewrite calls_evaluated.
  by rewrite <- !(assoc_L (++)).
Qed.

Lemma calls_updateFinder (s : State) :
  calls (updateFinder s).2 = calls s ++ emitted s (updateFinder s).2.
Proof.
  destruct (pattern_ok (categoryInput s)) eqn:Hc.
  - destruct (pattern_ok (propertyInput s)) eqn:Hp.
    + rewrite (updateFinder_compiled s Hc Hp). unfold emitted.
      destruct (length (Object_keys (recomputed s)) =? 0);
        cbn [snd log_call calls]; rewrite calls_evaluated;
        rewrite <- !(assoc_L (++)); by rewrite drop_app_length.
    + rewrite (updateFinder_property_malformed s Hc Hp). unfold emitted.
      cbn [snd set_rule_store calls]. rewrite calls_cleared.
      by rewrite drop_app_length.
  - rewrite (updateFinder_category_malformed s Hc). unfold emitted.
    cbn [snd]. rewrite calls_cleared. by rewrite drop_app_length.
Qed.

(** Membership in a log written out call by call. *)
Ltac in_log :=
  unfold evaluation_calls;
  repeat (rewrite ?elem_of_app, ?elem_of_cons, ?elem_of_nil);
  first [ by intuition discriminate | by auto 10 ].

(** C1: a run of [updateFinder] whose two patterns compile reads the mapping
    [recomputed s] right after the group's update and logs it.  If that
    mapping is empty, the run ends with the alert and makes no call to the
    hider at all; if it is not empty, the run raises no alert and ends with
    [hider.set(false)] followed by [hider.set(true, items)]. *)
Theorem updateFinder_alerts_or_isolates (s : State) :
  pattern_ok (categoryInput s) = true →
  pattern_ok (propertyInput s) = true →
  let items := recomputed s in
  let done := emitted s (updateFinder s).2 in
  (updateFinder s).1 = inr () ∧
  (items = ∅ →
     done = evaluation_calls s ++
              [console_log items; alert "No items found!"] ∧
     alert "No items found!" ∈ done ∧
     ∀ visible shown, Hider_set visible shown ∉ done) ∧
  (items ≠ ∅ →
     done = evaluation_calls s ++
              [console_log items; Hider_set false None;
               Hider_set true (Some items)] ∧
     ∀ message, alert message ∉ done).
Proof.
  intros Hc Hp items done. split; [|split].
  - by rewrite (updateFinder_compiled s Hc Hp).
  - intros Hzero. subst done.
    rewrite (emitted_zero_match s Hc Hp Hzero). subst items. rewrite Hzero.
    split; [done|]. split; [in_log|]. intros visible shown. in_log.
  - intros Hsome. subst done.
    rewrite (emitted_some_match s Hc Hp Hsome).
    split; [done|]. intros message. in_log.
Qed.

(** C5: a text that is not a well-formed pattern makes [new RegExp] raise
    where the rule's pattern is built, so the run of [updateFinder] ends with
    that [SyntaxError] before [queryGroup.update] is called; when both texts
    are well formed, neither construction raises and the update is reached. *)
Theorem malformed_pattern_raises_before_update (s : State) :
  let done := emitted s (updateFinder s).2 in
  (∀ text s0,
     new_RegExp text s0 =
       if pattern_ok text then (inr {| pattern := text |}, s0)
       else (inl (SyntaxError text), s0)) ∧
  (pattern_ok (categoryInput s) = false ∨
   pattern_ok (propertyInput s) = false →
     (∃ text, (updateFinder s).1 = inl (SyntaxError text) ∧
              pattern_ok text = false ∧
              (text = categoryInput s ∨ text = propertyInput s)) ∧
     ∀ m f q, QueryGroup_update m f q ∉ done) ∧
  (pattern_ok (categoryInput s) = true ∧
   pattern_ok (propertyInput s) = true →
     (updateFinder s).1 = inr () ∧
     QueryGroup_update (model_uuid s) (ifcFile s)
       (group_view (set_rule_store (λ _, refreshed_store s) s)) ∈ done).
Proof.
  intros done. split; [|split].
  - intros text s0. unfold new_RegExp. by destruct (pattern_ok text).
  - intros Hbad. subst done.
    destruct (pattern_ok (categoryInput s)) eqn:Hc.
    + destruct Hbad as [|Hp]; [done|].
      rewrite (updateFinder_property_malformed s Hc Hp). split.
      * exists (propertyInput s). split; [done|]. split; [done|]. by right.
      * intros m f q. erewrite emitted_app.
        2:{ cbn [snd set_rule_store calls]. apply calls_cleared. }
        in_log.
    + rewrite (updateFinder_category_malformed s Hc). split.
      * exists (categoryInput s). split; [done|]. split; [done|]. by left.
      * intros m f q. erewrite emitted_app.
        2:{ cbn [snd]. apply calls_cleared. }
        in_log.
  - intros [Hc Hp]. subst done. split.
    + by rewrite (updateFinder_compiled s Hc Hp).
    + destruct (decide (recomputed s = ∅)) as [Hzero|Hsome].
      * rewrite (emitted_zero_match s Hc Hp Hzero). in_log.
      * rewrite (emitted_some_match s Hc Hp Hsome). in_log.
Qed.

(** ** The shared rule objects *)

Lemma value_of_set_value (re : RegExp) (r : IfcFinderRule) :
  value_of (set_value re r) = re.
Proof. by destruct r. Qed.

Lemma lookup_refreshed_category (s : State) :
  refreshed_store s !! categoryRule =
    set_value {| pattern := categoryInput s |} <$> rule_store s !! categoryRule.
Proof.
  unfold refreshed_store. rewrite lookup_alter_ne by done.
  apply lookup_alter_eq.
Qed.

Lemma lookup_refreshed_property (s : State) :
  refreshed_store s !! propertyRule =
    set_value {| pattern := propertyInput s |} <$> rule_store s !! propertyRule.
Proof.
  unfold refreshed_store. rewrite lookup_alter_eq.
  by rewrite lookup_alter_ne by done.
Qed.

Lemma alter_category_store (re c v : RegExp) :
  alter (set_value re) categoryRule (store_of c v) = store_of re v.
Proof.
  unfold store_of, categoryRule, propertyRule. apply map_eq. intros i.
  destruct (decide (i = 0)) as [->|]; [by simplify_map_eq|].
  destruct (decide (i = 1)) as [->|]; by simplify_map_eq.
Qed.

Lemma alter_property_store (re c v : RegExp) :
  alter (set_value re) propertyRule (store_of c v) = store_of c re.
Proof.
  unfold store_of, categoryRule, propertyRule. apply map_eq. intros i.
  destruct (decide (i = 0)) as [->|]; [by simplify_map_eq|].
  destruct (decide (i = 1)) as [->|]; by simplify_map_eq.
Qed.

Lemma refreshed_store_of (s : State) (c v : RegExp) :
  rule_store s = store_of c v →
  refreshed_store s =
    store_of {| pattern := categoryInput s |} {| pattern := propertyInput s |}.
Proof.
  intros Hs. unfold refreshed_store. rewrite Hs.
  by rewrite alter_category_store, alter_property_store.
Qed.

(** C9: on the zero-match path of [updateFinder] the alert is raised and the
    hider is not called, yet the run has already cleared both queries and
    overwritten the patterns of both rule objects with the text of the two
    inputs: the clears come first in the log, the update that follows is made
    on the rewritten rules, and the store the run leaves behind holds the new
    patterns (and differs from the old store whenever a text was changed). *)
Theorem zero_match_run_has_rewritten_the_rules (s : State) :
  pattern_ok (categoryInput s) = true →
  pattern_ok (propertyInput s) = true →
  recomputed s = ∅ →
  let s' := (updateFinder s).2 in
  emitted s s' =
    [Query_clear "category"; Query_clear "property";
     QueryGroup_update (model_uuid s) (ifcFile s) (group_view s');
     console_log ∅; alert "No items found!"] ∧
  (∀ visible shown, Hider_set visible shown ∉ emitted s s') ∧
  rule_store s' = refreshed_store s ∧
  (∀ r, rule_store s !! categoryRule = Some r →
        rule_store s' !! categoryRule =
          Some (set_value {| pattern := categoryInput s |} r)) ∧
  (∀ r, rule_store s !! propertyRule = Some r →
        rule_store s' !! propertyRule =
          Some (set_value {| pattern := propertyInput s |} r)) ∧
  (∀ r, rule_store s !! categoryRule = Some r →
        pattern (value_of r) ≠ categoryInput s →
        rule_store s' ≠ rule_store s).
Proof.
  intros Hc Hp Hzero s'.
  assert (Hstore : rule_store s' = refreshed_store s).
  { subst s'. rewrite (updateFinder_compiled s Hc Hp).
    by rewrite (proj2 (Object_keys_empty _) Hzero). }
  assert (Hview : group_view s' =
                  group_view (set_rule_store (λ _, refreshed_store s) s)).
  { subst s'. rewrite (updateFinder_compiled s Hc Hp).
    by rewrite (proj2 (Object_keys_empty _) Hzero). }
  split; [|split; [|split; [|split; [|split]]]].
  - rewrite Hview. subst s'. by rewrite (emitted_zero_match s Hc Hp Hzero).
  - intros visible shown. subst s'.
    rewrite (emitted_zero_match s Hc Hp Hzero). in_log.
  - done.
  - intros r Hr. by rewrite Hstore, lookup_refreshed_category, Hr.
  - intros r Hr. by rewrite Hstore, lookup_refreshed_property, Hr.
  - intros r Hr Hnew Hsame.
    assert (Hlook : rule_store s' !! categoryRule = Some r) by by rewrite Hsame.
    rewrite Hstore, lookup_refreshed_category, Hr in Hlook.
    simpl in Hlook. injection Hlook as Hlook.
    apply Hnew. rewrite <- Hlook at 1. by rewrite value_of_set_value.
Qed.

(** C8: the module body isolates the items of the first evaluation with no
    test on them: whatever mapping the group holds after the first update,
    the log goes on with [hider.set(false)] and [hider.set(true, items)], so
    an empty mapping leaves every element hidden; a run of [updateFinder]
    that finds nothing makes no call to the hider. *)
Theorem startup_isolates_without_a_guard :
  let items := finder_items (calls first_evaluation) in
  last (calls first_evaluation) =
    Some (QueryGroup_update (model_uuid startup) (ifcFile startup)
            (group_view startup)) ∧
  calls startup =
    calls first_evaluation ++
      [Hider_set false None; Hider_set true (Some items)] ∧
  (items = ∅ →
     ∀ fragment id, visibility_of (calls startup) fragment id = false) ∧
  (∀ s, pattern_ok (categoryInput s) = true →
        pattern_ok (propertyInput s) = true →
        recomputed s = ∅ →
        ∀ visible shown,
          Hider_set visible shown ∉ emitted s (updateFinder s).2).
Proof.
  intros items. split; [done|]. split.
  { simpl. by rewrite <- ?(assoc_L (++)). }
  split.
  - intros Hzero fragment id.
    replace (calls startup) with
      (calls first_evaluation ++
         [Hider_set false None; Hider_set true (Some items)])
      by (simpl; by rewrite <- ?(assoc_L (++))).
    rewrite visibility_of_isolate, Hzero. by rewrite lookup_empty.
  - intros s Hc Hp Hzero visible shown.
    rewrite (emitted_zero_match s Hc Hp Hzero). in_log.
Qed.

(** ** The panel's class list *)

Lemma elem_of_classList_remove (token t : string) (l : list string) :
  t ∈ classList.remove token l ↔ t ∈ l ∧ t ≠ token.
Proof. unfold classList.remove. rewrite list_elem_of_filter. tauto. Qed.

Lemma elem_of_classList_add (token t : string) (l : list string) :
  t ∈ classList.add token l ↔ t ∈ l ∨ t = token.
Proof.
  unfold classList.add, classList.contains. case_bool_decide as Hin.
  - split; [tauto|]. intros [?| ->]; done.
  - rewrite elem_of_app, list_elem_of_singleton. tauto.
Qed.

Lemma toggler_click_present (s : State) :
  "options-menu-visible" ∈ panel_classList s →
  toggler_click s =
    set_panel_classList (classList.remove "options-menu-visible") s.
Proof.
  intros Hin. unfold toggler_click, classList.contains.
  by rewrite bool_decide_true.
Qed.

Lemma toggler_click_absent (s : State) :
  "options-menu-visible" ∉ panel_classList s →
  toggler_click s =
    set_panel_classList (classList.add "options-menu-visible") s.
Proof.
  intros Hin. unfold toggler_click, classList.contains.
  by rewrite bool_decide_false.
Qed.

(** C10: a click on the toggler removes "options-menu-visible" from the
    panel's class list when it is there and adds it when it is not, so the
    click flips the membership of that class, and two clicks in a row give
    every class the membership it had before them. *)
Theorem toggler_click_flips_and_restores (s : State) :
  let shown (s : State) :=
    classList.contains "options-menu-visible" (panel_classList s) in
  (shown s = true →
     panel_classList (toggler_click s) =
       classList.remove "options-menu-visible" (panel_classList s)) ∧
  (shown s = false →
     panel_classList (toggler_click s) =
       classList.add "options-menu-visible" (panel_classList s)) ∧
  shown (toggler_click s) = negb (shown s) ∧
  (∀ token,
     classList.contains token
       (panel_classList (toggler_click (toggler_click s))) =
     classList.contains token (panel_classList s)).
Proof.
  intros shown. subst shown. cbv beta. unfold classList.contains.
  destruct (decide ("options-menu-visible" ∈ panel_classList s)) as [Hin|Hout].
  - rewrite (toggler_click_present s Hin). cbn [panel_classList set_panel_classList].
    assert (Hgone : "options-menu-visible" ∉
                    classList.remove "options-menu-visible" (panel_classList s)).
    { rewrite elem_of_classList_remove. tauto. }
    split; [done|]. split; [by rewrite bool_decide_true|].
    split; [by rewrite bool_decide_false, bool_decide_true|].
    intros token. rewrite toggler_click_absent by done.
    cbn [panel_classList set_panel_classList]. apply bool_decide_ext.
    rewrite elem_of_classList_add, elem_of_classList_remove.
    destruct (decide (token = "options-menu-visible")) as [->|]; tauto.
  - rewrite (toggler_click_absent s Hout). cbn [panel_classList set_panel_classList].
    assert (Hthere : "options-menu-visible" ∈
                     classList.add "options-menu-visible" (panel_classList s)).
    { rewrite elem_of_classList_add. tauto. }
    split; [by rewrite bool_decide_false|]. split; [done|].
    split; [by rewrite bool_decide_true, bool_decide_false|].
    intros token. rewrite toggler_click_present by done.
    cbn [panel_classList set_panel_classList]. apply bool_decide_ext.
    rewrite elem_of_classList_remove, elem_of_classList_add.
    destruct (decide (token = "options-menu-visible")) as [->|]; tauto.
Qed.

(** ** What every reachable page keeps *)

Lemma group_view_ok (s : State) (c v : RegExp) :
  page_ok s → rule_store s = store_of c v → group_view s = view_of c v.
Proof.
  intros [] Hs. unfold group_view, deref. rewrite ok_group0. simpl.
  by rewrite ok_basic0, ok_property0, Hs.
Qed.

Lemma page_ok_log_call (s : State) (c : Call) :
  page_ok s →
  is_fetch c = false → is_IfcLoader_load c = false → update_ok c →
  page_ok (log_call c s).
Proof.
  intros [] Hf Hl Hu. split; try done; simpl.
  - rewrite filter_app, ok_fetch0, (filter_cons_False _ c [])
      by (cbv beta; rewrite Hf; intros []).
    by rewrite filter_nil.
  - rewrite filter_app, ok_load0, (filter_cons_False _ c [])
      by (cbv beta; rewrite Hl; intros []).
    by rewrite filter_nil.
  - apply Forall_app. split; [done|]. by constructor.
Qed.

Lemma page_ok_set_rule_store (s : State)
    (f : gmap ref IfcFinderRule → gmap ref IfcFinderRule) :
  page_ok s →
  (∀ c v, ∃ c' v', f (store_of c v) = store_of c' v') →
  page_ok (set_rule_store f s).
Proof.
  intros [] Hf. split; try done; simpl.
  destruct ok_rules0 as (c & v & ->). apply Hf.
Qed.

Lemma page_ok_cleared (s : State) : page_ok s → page_ok (cleared s).
Proof. intros Hs. unfold cleared. by repeat apply page_ok_log_call. Qed.

Lemma page_ok_startup : page_ok startup.
Proof.
  split; try done.
  - by exists {| pattern := "IfcWallStandardCase" |}, {| pattern := "yeso" |}.
  - repeat constructor. eexists _, _. reflexivity.
Qed.

Lemma page_ok_updateFinder (s : State) :
  page_ok s → page_ok (updateFinder s).2.
Proof.
  intros Hs. destruct (pattern_ok (categoryInput s)) eqn:Hc.
  - destruct (pattern_ok (propertyInput s)) eqn:Hp.
    + rewrite (updateFinder_compiled s Hc Hp).
      assert (Hev : page_ok (evaluated s)).
      { unfold evaluated. apply page_ok_log_call; try done.
        destruct (ok_rules s Hs) as (c & v & Hstore).
        apply page_ok_log_call; try done.
        - apply page_ok_set_rule_store; [by apply page_ok_cleared|].
          intros _ _. erewrite refreshed_store_of by done. by eexists _, _.
        - split; [by destruct Hs|]. split; [by destruct Hs|].
          eexists _, _. apply group_view_ok.
          + apply page_ok_set_rule_store; [done|].
            intros _ _. erewrite refreshed_store_of by done. by eexists _, _.
          + simpl. by eapply refreshed_store_of. }
      destruct (length (Object_keys (recomputed s)) =? 0); cbn [snd].
      * by apply page_ok_log_call.
      * apply page_ok_log_call; [|done..]. by apply page_ok_log_call.
    + rewrite (updateFinder_property_malformed s Hc Hp). cbn [snd].
      apply page_ok_set_rule_store; [by apply page_ok_cleared|].
      intros c v. rewrite alter_category_store. by eexists _, _.
  - rewrite (updateFinder_category_malformed s Hc). cbn [snd].
    by apply page_ok_cleared.
Qed.

Lemma page_ok_handle (s : State) (a : UserAction) :
  page_ok s → page_ok (handle s a).
Proof.
  intros Hs. destruct a; simpl.
  - by destruct Hs.
  - by destruct Hs.
  - by apply page_ok_updateFinder.
  - unfold toggler_click. destruct Hs. by case_match.
Qed.

Lemma page_ok_run (actions : list UserAction) : page_ok (run actions).
Proof.
  unfold run. induction actions as [|a actions IH] using rev_ind.
  - apply page_ok_startup.
  - rewrite foldl_snoc. by apply page_ok_handle.
Qed.

(** C7: whatever the user does, the log of the page holds one fetch, of the
    fixed IFC url, and one load, of the bytes that fetch answered; at least
    one [queryGroup.update] was made, and every one of them was given the
    file named "example" that wraps those same bytes. *)
Theorem ifcFile_wraps_the_fetched_bytes (actions : list UserAction) :
  let log := calls (run actions) in
  filter is_fetch log = [fetch ifc_url] ∧
  filter is_IfcLoader_load log = [IfcLoader_load (http_body ifc_url)] ∧
  (∃ m f q, QueryGroup_update m f q ∈ log) ∧
  (∀ m f q, QueryGroup_update m f q ∈ log →
     f = {| fileBits := http_body ifc_url; fileName := "example" |}).
Proof.
  intros log. subst log. pose proof (page_ok_run actions) as Hok.
  split; [by destruct Hok|]. split; [by destruct Hok|]. split.
  - induction actions as [|a actions IH] using rev_ind.
    + eexists _, _, _. unfold run. simpl. in_log.
    + destruct (IH (page_ok_run actions)) as (m & f & q & Hin).
      exists m, f, q. unfold run in *. rewrite foldl_snoc.
      set (s := foldl handle startup actions) in *.
      destruct a; simpl; try done.
      * rewrite calls_updateFinder. apply elem_of_app. by left.
      * unfold toggler_click. by case_match.
  - intros m f q Hin. destruct Hok.
    rewrite Forall_forall in ok_updates0.
    by destruct (ok_updates0 _ Hin) as (_ & -> & _).
Qed.

(** ** The parts of the page the script alone decides *)

(** X1: every evaluation the page ever asks for is over the same two queries,
    the category query first, each built with [inclusive: false] and holding
    exactly one rule. *)
Theorem every_update_sees_both_queries (actions : list UserAction) :
  ∀ m f q, QueryGroup_update m f q ∈ calls (run actions) →
    query_name <$> q = ["category"; "property"] ∧
    inclusive <$> q = [false; false] ∧
    ∃ c v, rules <$> q =
             [[IfcCategoryRule c];
              [IfcPropertyRule {| pattern := ".*" |} v]].
Proof.
  intros m f q Hin. destruct (page_ok_run actions).
  rewrite Forall_forall in ok_updates0.
  destruct (ok_updates0 _ Hin) as (_ & _ & c & v & ->).
  split; [done|]. split; [done|]. by exists c, v.
Qed.

(** X2: only [updateFinder] calls collaborators after startup, and when a run of
    it calls the hider, it does so after the group's update, with the mapping
    read from the group after that update. *)
Theorem hider_calls_follow_the_update (s : State) :
  let done := emitted s (updateFinder s).2 in
  (∀ text, calls (handle s (TypeCategory text)) = calls s) ∧
  (∀ text, calls (handle s (TypeProperty text)) = calls s) ∧
  calls (handle s ClickToggler) = calls s ∧
  calls (handle s ClickUpdate) = calls s ++ done ∧
  (∀ visible shown, Hider_set visible shown ∈ done →
     done = evaluation_calls s ++
              [console_log (recomputed s); Hider_set false None;
               Hider_set true (Some (recomputed s))]).
Proof.
  intros done. split; [done|]. split; [done|]. split.
  { unfold handle, toggler_click. by case_match. }
  split; [apply calls_updateFinder|].
  intros visible shown. subst done.
  destruct (pattern_ok (categoryInput s)) eqn:Hc.
  - destruct (pattern_ok (propertyInput s)) eqn:Hp.
    + destruct (decide (recomputed s = ∅)) as [Hzero|Hsome].
      * rewrite (emitted_zero_match s Hc Hp Hzero). in_log.
      * by rewrite (emitted_some_match s Hc Hp Hsome).
    + rewrite (updateFinder_property_malformed s Hc Hp).
      erewrite emitted_app.
      2:{ cbn [snd set_rule_store calls]. apply calls_cleared. }
      in_log.
  - rewrite (updateFinder_category_malformed s Hc).
    erewrite emitted_app.
    2:{ cbn [snd]. apply calls_cleared. }
    in_log.
Qed.






(** X5: a run of [updateFinder] that fails on the property text has already
    cleared both queries and overwritten the category rule's pattern; the
    property rule is as it was, and nothing is evaluated. *)
Theorem failed_run_keeps_its_writes (s : State) :
  pattern_ok (categoryInput s) = true →
  pattern_ok (propertyInput s) = false →
  let s' := (updateFinder s).2 in
  (updateFinder s).1 = inl (SyntaxError (propertyInput s)) ∧
  emitted s s' = [Query_clear "category"; Query_clear "property"] ∧
  (∀ r, rule_store s !! categoryRule = Some r →
        rule_store s' !! categoryRule =
          Some (set_value {| pattern := categoryInput s |} r)) ∧
  rule_store s' !! propertyRule = rule_store s !! propertyRule.
Proof.
  intros Hc Hp s'. subst s'.
  rewrite (updateFinder_property_malformed s Hc Hp). cbn [fst snd].
  split; [done|]. split; [|split].
  - apply emitted_app. cbn [set_rule_store calls]. apply calls_cleared.
  - intros r Hr. cbn [rule_store set_rule_store cleared log_call].
    by rewrite lookup_alter_eq, Hr.
  - cbn [rule_store set_rule_store cleared log_call].
    by rewrite lookup_alter_ne.
Qed.

End Proofs.

(** * Sessions *)

Section Sessions.
Context `{!Host}.

(** ** What a click on Update adds, shape by shape *)

Lemma emitted_rejected_category (s : State) :
  pattern_ok (categoryInput s) = false →
  emitted s (updateFinder s).2 =
    [Query_clear "category"; Query_clear "property"].
Proof.
  intros Hc. rewrite (updateFinder_category_malformed s Hc).
  apply emitted_app. cbn [snd]. apply calls_cleared.
Qed.





(** ** Patterns that reach the rules *)

Lemma rules_vetted_startup : rules_vetted startup.
Proof.
  split.
  - exists {| pattern := "IfcWallStandardCase" |}, {| pattern := "yeso" |}.
    split; [done|]. split; by left.
  - repeat constructor.
    exists {| pattern := "IfcWallStandardCase" |}, {| pattern := "yeso" |}.
    split; [done|]. split; by left.
Qed.

Lemma rules_vetted_log_call (s : State) (c : Call) :
  rules_vetted s → update_vetted c → rules_vetted (log_call c s).
Proof.
  intros [] Hc. split; [done|]. simpl. apply Forall_app. split; [done|].
  by constructor.
Qed.

Lemma rules_vetted_updateFinder (s : State) :
  page_ok s → rules_vetted s → rules_vetted (updateFinder s).2.
Proof.
  intros Hok [(c & v & Hstore & Hcv & Hvv) Hlog].
  assert (Hcleared : rules_vetted (cleared s)).
  { unfold cleared. repeat apply rules_vetted_log_call; try done.
    split; [|done]. by exists c, v. }
  destruct (pattern_ok (categoryInput s)) eqn:Hc.
  - destruct (pattern_ok (propertyInput s)) eqn:Hp.
    + assert (Hnew : ∃ c' v',
                refreshed_store s = store_of c' v' ∧
                group_view (set_rule_store (λ _, refreshed_store s) s) =
                  view_of c' v' ∧
                vetted "IfcWallStandardCase" c' ∧ vetted "yeso" v').
      { exists {| pattern := categoryInput s |}, {| pattern := propertyInput s |}.
        split; [by eapply refreshed_store_of|]. split.
        - apply group_view_ok.
          + apply page_ok_set_rule_store; [done|]. intros _ _.
            erewrite refreshed_store_of by done. by eexists _, _.
          + simpl. by eapply refreshed_store_of.
        - split; by right. }
      destruct Hnew as (c' & v' & Hst & Hview & Hc' & Hv').
      rewrite (updateFinder_compiled s Hc Hp).
      assert (Hev : rules_vetted (evaluated s)).
      { unfold evaluated. apply rules_vetted_log_call; [|done].
        apply rules_vetted_log_call.
        - destruct Hcleared. split; [|done]. simpl. by exists c', v'.
        - simpl. by exists c', v'. }
      destruct (length (Object_keys (recomputed s)) =? 0); cbn [snd].
      * by apply rules_vetted_log_call.
      * apply rules_vetted_log_call; [|done]. by apply rules_vetted_log_call.
    + rewrite (updateFinder_property_malformed s Hc Hp). cbn [snd].
      destruct Hcleared. split; [|done]. simpl. rewrite Hstore.
      rewrite alter_category_store.
      exists {| pattern := categoryInput s |}, v.
      split; [done|]. split; [by right|done].
  - by rewrite (updateFinder_category_malformed s Hc).
Qed.

Lemma rules_vetted_run (actions : list UserAction) : rules_vetted (run actions).
Proof.
  induction actions as [|a actions IH] using rev_ind.
  - apply rules_vetted_startup.
  - pose proof (page_ok_run actions) as Hok. unfold run in *.
    rewrite foldl_snoc. set (s := foldl handle startup actions) in *.
    destruct a; simpl.
    + by destruct IH.
    + by destruct IH.
    + by apply rules_vetted_updateFinder.
    + unfold toggler_click. destruct IH. by case_match.
Qed.

(** X7: a text that [new RegExp] rejects never becomes the pattern of a
    rule, whatever the user types and however often Update is clicked: on
    every page of every session the category rule and the property rule each
    hold either the literal the script wrote or a pattern that
    [new RegExp] accepted, the property rule's name is still the script's
    literal, and the same holds of the rules in every update the finder is
    asked for. *)
Theorem rejected_text_never_reaches_a_rule (actions : list UserAction) :
  (∃ c v,
     rule_store (run actions) !! categoryRule = Some (IfcCategoryRule c) ∧
     rule_store (run actions) !! propertyRule =
       Some (IfcPropertyRule {| pattern := ".*" |} v) ∧
     (pattern c = "IfcWallStandardCase" ∨ pattern_ok (pattern c) = true) ∧
     (pattern v = "yeso" ∨ pattern_ok (pattern v) = true)) ∧
  (∀ m f q, QueryGroup_update m f q ∈ calls (run actions) →
     ∃ c v,
       rules <$> q = [[IfcCategoryRule c];
                      [IfcPropertyRule {| pattern := ".*" |} v]] ∧
       (pattern c = "IfcWallStandardCase" ∨ pattern_ok (pattern c) = true) ∧
       (pattern v = "yeso" ∨ pattern_ok (pattern v) = true)).
Proof.
  destruct (rules_vetted_run actions) as [(c & v & Hstore & Hc & Hv) Hlog].
  split.
  - exists c, v. rewrite Hstore. split; [done|]. split; [done|]. done.
  - intros m f q Hin. rewrite Forall_forall in Hlog.
    destruct (Hlog _ Hin) as (c' & v' & -> & Hc' & Hv'). by exists c', v'.
Qed.


(** ** The menu *)

Lemma panel_classList_updateFinder (s : State) :
  panel_classList (updateFinder s).2 = panel_classList s.
Proof.
  destruct (pattern_ok (categoryInput s)) eqn:Hc.
  - destruct (pattern_ok (propertyInput s)) eqn:Hp.
    + rewrite (updateFinder_compiled s Hc Hp).
      by destruct (length (Object_keys (recomputed s)) =? 0).
    + by rewrite (updateFinder_property_malformed s Hc Hp).
  - by rewrite (updateFinder_category_malformed s Hc).
Qed.

Lemma toggler_click_hidden (s : State) :
  panel_classList s = ["options-menu"] →
  panel_classList (toggler_click s) = ["options-menu"; "options-menu-visible"].
Proof.
  intros Hs. rewrite toggler_click_absent; simpl; rewrite Hs; [done|].
  rewrite list_elem_of_singleton. discriminate.
Qed.

Lemma toggler_click_shown (s : State) :
  panel_classList s = ["options-menu"; "options-menu-visible"] →
  panel_classList (toggler_click s) = ["options-menu"].
Proof.
  intros Hs. rewrite toggler_click_present; simpl; rewrite Hs.
  - unfold classList.remove. rewrite filter_cons_True by discriminate.
    rewrite filter_cons_False by (intros Hne; by apply Hne). done.
  - rewrite !elem_of_cons. by right; left.
Qed.

(** X9: the panel's class list depends on the session only through the
    number of clicks on the toggler: after an even number it is
    "options-menu" alone, after an odd number "options-menu" followed by
    "options-menu-visible".  Typing and Update, accepted or rejected, never
    touch it, and the class "options-menu" is never lost. *)
Theorem menu_class_follows_click_parity (actions : list UserAction) :
  panel_classList (run actions) =
    if Nat.even (toggles actions) then ["options-menu"]
    else ["options-menu"; "options-menu-visible"].
Proof.
  unfold run, toggles. induction actions as [|a actions IH] using rev_ind.
  - done.
  - rewrite foldl_snoc, filter_app, length_app.
    set (s := foldl handle startup actions) in *.
    set (n := length (filter is_ClickToggler actions)) in *.
    destruct a; simpl; rewrite ?Nat.add_0_r; try done.
    + by rewrite panel_classList_updateFinder.
    + replace (n + 1) with (S n) by lia. rewrite Nat.even_succ, <- Nat.negb_even.
      destruct (Nat.even n); simpl.
      * by apply toggler_click_hidden.
      * by apply toggler_click_shown.
Qed.

(** X10: the toggler and the other handlers do not interfere: a click on
    the toggler followed by any action leaves the page in the state that the
    action followed by the click leaves it in; for Update this covers the
    rejected, the empty and the isolating run alike. *)
Theorem toggler_commutes_with_every_action (s : State) (a : UserAction) :
  handle (handle s ClickToggler) a = handle (handle s a) ClickToggler.
Proof.
  assert (Hupd : ∀ f, (updateFinder (set_panel_classList f s)).2 =
                      set_panel_classList f (updateFinder s).2).
  { intros f. destruct (pattern_ok (categoryInput s)) eqn:Hc.
    - destruct (pattern_ok (propertyInput s)) eqn:Hp.
      + rewrite (updateFinder_compiled s Hc Hp).
        rewrite (updateFinder_compiled (set_panel_classList f s) Hc Hp).
        change (recomputed (set_panel_classList f s)) with (recomputed s).
        by destruct (length (Object_keys (recomputed s)) =? 0).
      + rewrite (updateFinder_property_malformed s Hc Hp).
        by rewrite (updateFinder_property_malformed (set_panel_classList f s) Hc Hp).
    - rewrite (updateFinder_category_malformed s Hc).
      by rewrite (updateFinder_category_malformed (set_panel_classList f s) Hc). }
  destruct a; cbn [handle].
  - unfold toggler_click. simpl. by case_match.
  - unfold toggler_click. simpl. by case_match.
  - unfold toggler_click at 2. rewrite panel_classList_updateFinder.
    unfold toggler_click. case_match; apply Hupd.
  - done.
Qed.

(** X11: the category text is checked first.  When it is rejected the run
    ends with its [SyntaxError], whatever the property text is, after the
    two clears and before anything is written: both rules, both texts and
    the panel are as they were. *)
Theorem category_text_is_checked_first (s : State) :
  pattern_ok (categoryInput s) = false →
  let s' := (updateFinder s).2 in
  (updateFinder s).1 = inl (SyntaxError (categoryInput s)) ∧
  emitted s s' = [Query_clear "category"; Query_clear "property"] ∧
  rule_store s' = rule_store s ∧
  categoryInput s' = categoryInput s ∧
  propertyInput s' = propertyInput s.
Proof.
  intros Hc s'. subst s'. rewrite (emitted_rejected_category s Hc).
  by rewrite (updateFinder_category_malformed s Hc).
Qed.

End Sessions.

(** * The sample host at work *)

#[local] Existing Instance sample_host.

(** After "IfcDoor" is typed the finder answers nothing and the run alerts;
    on the page as loaded it answers the walls and the run isolates them. *)
Lemma updateFinder_alerts_or_isolates_witness :
  emitted door_page (updateFinder door_page).2 =
    evaluation_calls door_page ++
      [console_log ∅; alert "No items found!"] ∧
  emitted wall_page (updateFinder wall_page).2 =
    evaluation_calls wall_page ++
      [console_log sample_walls; Hider_set false None;
       Hider_set true (Some sample_walls)].
Proof.
  destruct (updateFinder_alerts_or_isolates door_page)
    as (_ & Hzero & _); [vm_compute; reflexivity..|].
  destruct (updateFinder_alerts_or_isolates wall_page)
    as (_ & _ & Hsome); [vm_compute; reflexivity..|].
  split.
  - apply Hzero. vm_compute. reflexivity.
  - apply Hsome. intros Hnone. vm_compute in Hnone. discriminate.
Defined.

(** With "(" in the property field the run stops after the two clears. *)
Lemma malformed_pattern_raises_before_update_witness :
  (updateFinder paren_page).1 = inl (SyntaxError "(") ∧
  emitted paren_page (updateFinder paren_page).2 =
    [Query_clear "category"; Query_clear "property"] ∧
  (∀ m f q,
     QueryGroup_update m f q ∉ emitted paren_page (updateFinder paren_page).2) ∧
  (updateFinder wall_page).1 = inr ().
Proof.
  destruct (malformed_pattern_raises_before_update paren_page)
    as (_ & Hbad & _).
  destruct (malformed_pattern_raises_before_update wall_page)
    as (_ & _ & Hgood).
  split; [reflexivity|]. split; [reflexivity|]. split.
  - apply Hbad. right. reflexivity.
  - apply Hgood. split; reflexivity.
Defined.

(** The run that alerts has already replaced the wall pattern by "IfcDoor". *)
Lemma zero_match_run_has_rewritten_the_rules_witness :
  rule_store door_page !! categoryRule =
    Some (IfcCategoryRule {| pattern := "IfcWallStandardCase" |}) ∧
  rule_store (updateFinder door_page).2 !! categoryRule =
    Some (IfcCategoryRule {| pattern := "IfcDoor" |}) ∧
  rule_store (updateFinder door_page).2 ≠ rule_store door_page ∧
  emitted door_page (updateFinder door_page).2 =
    [Query_clear "category"; Query_clear "property";
     QueryGroup_update "3f0c"
       {| fileBits := sample_bytes; fileName := "example" |}
       (view_of {| pattern := "IfcDoor" |} {| pattern := "yeso" |});
     console_log ∅; alert "No items found!"].
Proof.
  destruct (zero_match_run_has_rewritten_the_rules door_page)
    as (Hlog & _ & _ & Hcat & _ & Hdiff); [vm_compute; reflexivity..|].
  split; [reflexivity|]. split; [|split].
  - apply (Hcat (IfcCategoryRule {| pattern := "IfcWallStandardCase" |})).
    reflexivity.
  - apply (Hdiff (IfcCategoryRule {| pattern := "IfcWallStandardCase" |}));
      [reflexivity|discriminate].
  - rewrite Hlog. reflexivity.
Defined.

(** Startup isolates the sample walls; the run that finds no door makes no
    call to the hider. *)
Lemma startup_isolates_without_a_guard_witness :
  calls wall_page =
    calls first_evaluation ++
      [Hider_set false None; Hider_set true (Some sample_walls)] ∧
  (∀ visible shown,
     Hider_set visible shown ∉ emitted door_page (updateFinder door_page).2).
Proof.
  destruct startup_isolates_without_a_guard as (_ & Hlog & _ & Hkeep).
  split.
  - apply Hlog.
  - apply (Hkeep door_page); vm_compute; reflexivity.
Defined.

(** One click shows the menu, the next one hides it again. *)
Lemma toggler_click_flips_and_restores_witness :
  panel_classList (toggler_click wall_page) =
    ["options-menu"; "options-menu-visible"] ∧
  panel_classList (toggler_click (toggler_click wall_page)) =
    ["options-menu"] ∧
  classList.contains "options-menu-visible"
    (panel_classList (toggler_click (toggler_click wall_page))) = false.
Proof.
  destruct (toggler_click_flips_and_restores wall_page)
    as (_ & Hadd & _ & Hback).
  split; [|split].
  - rewrite Hadd; reflexivity.
  - reflexivity.
  - rewrite Hback. reflexivity.
Defined.

(** Both updates of a two-step session carry the three sample bytes. *)
Lemma ifcFile_wraps_the_fetched_bytes_witness :
  filter is_QueryGroup_update
    (calls (run [TypeCategory "IfcDoor"; ClickUpdate])) =
    [QueryGroup_update "3f0c"
       {| fileBits := sample_bytes; fileName := "example" |}
       (view_of {| pattern := "IfcWallStandardCase" |} {| pattern := "yeso" |});
     QueryGroup_update "3f0c"
       {| fileBits := sample_bytes; fileName := "example" |}
       (view_of {| pattern := "IfcDoor" |} {| pattern := "yeso" |})] ∧
  filter is_IfcLoader_load
    (calls (run [TypeCategory "IfcDoor"; ClickUpdate])) =
    [IfcLoader_load sample_bytes].
Proof.
  destruct (ifcFile_wraps_the_fetched_bytes [TypeCategory "IfcDoor"; ClickUpdate])
    as (_ & Hload & _ & _).
  split; [reflexivity|apply Hload].
Defined.


(** The update of the page as loaded is over the wall query and the plaster
    query, both exclusive. *)
Lemma every_update_sees_both_queries_witness :
  inclusive <$> view_of {| pattern := "IfcWallStandardCase" |}
                        {| pattern := "yeso" |} = [false; false].
Proof.
  refine (proj1 (proj2 (every_update_sees_both_queries [] "3f0c"
    {| fileBits := sample_bytes; fileName := "example" |} _ _))).
  vm_compute. do 3 apply list_elem_of_further. apply list_elem_of_here.
Defined.


(** With "IfcDoor" and "(" typed, the failed run leaves the door pattern in
    the category rule. *)
Lemma failed_run_keeps_its_writes_witness :
  (updateFinder door_paren_page).1 = inl (SyntaxError "(") ∧
  rule_store (updateFinder door_paren_page).2 !! categoryRule =
    Some (IfcCategoryRule {| pattern := "IfcDoor" |}).
Proof.
  destruct (failed_run_keeps_its_writes door_paren_page)
    as (Hexn & _ & Hcat & _); [vm_compute; reflexivity..|].
  split; [exact Hexn|].
  apply (Hcat (IfcCategoryRule {| pattern := "IfcWallStandardCase" |})).
  reflexivity.
Defined.


(** With both texts broken the run names the category text and writes
    nothing. *)
Lemma category_text_is_checked_first_witness :
  (updateFinder broken_page).1 = inl (SyntaxError "(") ∧
  rule_store (updateFinder broken_page).2 = rule_store broken_page.
Proof.
  destruct (category_text_is_checked_first broken_page)
    as (Hexn & _ & Hrules & _); [vm_compute; reflexivity|].
  split; [exact Hexn|exact Hrules].
Defined.
